(** * LtcArmory block database: a shallow embedding of [cppForSwig]

    The development follows three headers of the repository:
    - [BlockDataManagerConfig.h]: the database modes;
    - [lmdb_wrapper.h]: [LDBIter] and [LMDBBlockDatabase], whose inline
      members ([beginDBTransaction], [getDbSelect], [getIterator],
      [resetReaders]) are embedded as written;
    - [BDM_mainthread.h]: only declarations; the rendezvous of
      [BDM_Inject] is modelled from the specification.

    Members that the headers merely declare (their bodies live in
    translation units that are not part of the sources at hand) are modelled
    from the specification; each such definition says so in its comment. *)

From Stdlib Require Import ZArith List Bool Lia.
From stdpp Require Import base decidable countable option list strings gmap.

Local Open Scope Z_scope.

(** A [BinaryData] is a byte string; a byte is a [Z] in [0, 256). *)
Abbreviation BinaryData := (list Z) (only parsing).

(* ===================================================================== *)
(** * Part I: the model *)
(* ===================================================================== *)

(** ** BlockDataManagerConfig.h *)

Inductive ARMORY_DB_TYPE : Set :=
| ARMORY_DB_BARE
| ARMORY_DB_LITE
| ARMORY_DB_PARTIAL
| ARMORY_DB_FULL
| ARMORY_DB_SUPER
| ARMORY_DB_WHATEVER.

Inductive DB_PRUNE_TYPE : Set :=
| DB_PRUNE_ALL
| DB_PRUNE_NONE
| DB_PRUNE_WHATEVER.

#[global] Instance ARMORY_DB_TYPE_eq_dec : EqDecision ARMORY_DB_TYPE.
Proof. solve_decision. Defined.

(** ** Database selectors *)

(** Modelled from the spec: [DB_SELECT] is declared in a header that is not
    among the sources.  The specification lists five logical stores; the
    enumeration's last member [COUNT] only sizes the array [dbs_] and is not
    a selector, so it is not a constructor here. *)
Inductive DB_SELECT : Set :=
| HEADERS
| BLKDATA
| HISTORY
| TXHINTS
| SPENTNESS.

#[global] Instance DB_SELECT_eq_dec : EqDecision DB_SELECT.
Proof. solve_decision. Defined.

(** The integer value of each enumerator, in declaration order. *)
Definition DB_SELECT_to_nat (d : DB_SELECT) : nat :=
  match d with
  | HEADERS => 0
  | BLKDATA => 1
  | HISTORY => 2
  | TXHINTS => 3
  | SPENTNESS => 4
  end.

Definition DB_SELECT_of_nat (n : nat) : option DB_SELECT :=
  match n with
  | 0%nat => Some HEADERS
  | 1%nat => Some BLKDATA
  | 2%nat => Some HISTORY
  | 3%nat => Some TXHINTS
  | 4%nat => Some SPENTNESS
  | _ => None
  end.

#[global] Instance DB_SELECT_countable : Countable DB_SELECT.
Proof.
  apply (inj_countable DB_SELECT_to_nat DB_SELECT_of_nat).
  intros d; destruct d; reflexivity.
Defined.

(** ** The LMDB layer seen from [lmdb_wrapper.h]

    [lmdbpp.h], which declares [LMDBEnv], [LMDB] and their nested classes,
    is not among the sources.  The wrapper relies on the following shape of
    these types only. *)

(** Modelled from the spec: [LMDB::Mode], the read/write mode chosen per
    call site. *)
Inductive Mode : Set := ReadOnly | ReadWrite.

(** An [LMDBEnv*]: the address of an environment, or the null pointer. *)
Abbreviation LMDBEnv_ptr := (option nat) (only parsing).

(** Modelled from the spec: an [LMDBEnv::Transaction], constructed from an
    environment and a mode, is the transaction opened on that environment
    in that mode.  The record keeps these two constructor arguments and
    nothing else: what the constructor does with them (opening, nesting
    inside an outer transaction, a null environment) belongs to [lmdbpp.h]
    and is not modelled. *)
Record Transaction : Type := mkTransaction {
  txn_env : LMDBEnv_ptr;
  txn_mode : Mode
}.

(** Modelled from the spec: an [LMDB] database is an ordered key-value
    store, here its entries in key order. *)
Record LMDB : Type := mkLMDB {
  lmdb_entries : list (BinaryData * BinaryData)
}.

(** Modelled from the spec: an [LMDB::Iterator] is the store's native
    cursor.  It knows the database it walks (every [LMDB] object of the
    model is an element of the array [dbs_], so the address of one is its
    index; a default-constructed iterator has none) and the entry it stands
    on, if any. *)
Record Iterator : Type := mkIterator {
  iter_db : option DB_SELECT;
  iter_csr : option nat
}.

(** Modelled from the spec: [LMDB::begin()], called on the element [db] of
    [dbs_], is a cursor on that store's first entry, or an invalid one when
    the store is empty. *)
Definition LMDB_begin (db : DB_SELECT) (store : LMDB) : Iterator :=
  {| iter_db := Some db;
     iter_csr := match lmdb_entries store with
                 | [] => None
                 | _ :: _ => Some 0%nat
                 end |}.

(** ** [BinaryRefReader] *)

(** Modelled from the spec: [BinaryRefReader] comes from [BinaryData.h],
    which is not among the sources.  The specification describes a reader
    as a view over a byte slice with a position. *)
Record BinaryRefReader : Type := mkBinaryRefReader {
  bdRef_ : BinaryData;
  pos_ : Z
}.

(** Modelled from the spec: [BinaryRefReader::resetPosition] puts the
    position back to 0 and keeps the slice. *)
Definition resetPosition (r : BinaryRefReader) : BinaryRefReader :=
  {| bdRef_ := bdRef_ r; pos_ := 0 |}.

(** ** [LDBIter] (lmdb_wrapper.h, lines 107-173) *)

Record LDBIter : Type := mkLDBIter {
  iter_ : Iterator;
  currKey_ : BinaryData;
  currValue_ : BinaryData;
  currKeyReader_ : BinaryRefReader;
  currValueReader_ : BinaryRefReader;
  isDirty_ : bool
}.

(** [LDBIter(void) { isDirty_=true;}]: every member default-constructed,
    then the flag set. *)
Definition LDBIter_default : LDBIter :=
  {| iter_ := {| iter_db := None; iter_csr := None |};
     currKey_ := [];
     currValue_ := [];
     currKeyReader_ := {| bdRef_ := []; pos_ := 0 |};
     currValueReader_ := {| bdRef_ := []; pos_ := 0 |};
     isDirty_ := true |}.

(** Modelled from the spec: [LMDB::Iterator::isValid()] tells whether the
    cursor stands on an entry of the store it walks. *)
Definition Iterator_isValid (store : LMDB) (it : Iterator) : bool :=
  match iter_csr it with
  | Some i => bool_decide (i < length (lmdb_entries store))%nat
  | None => false
  end.

(** [bool isValid(void) { return iter_.isValid(); }] *)
Definition isValid (store : LMDB) (it : LDBIter) : bool :=
  Iterator_isValid store (iter_ it).

(** [bool isNull(void) { return !iter_.isValid(); }] *)
Definition isNull (store : LMDB) (it : LDBIter) : bool :=
  negb (Iterator_isValid store (iter_ it)).

(** [void resetReaders(void)
      {currKeyReader_.resetPosition();currValueReader_.resetPosition();}] *)
Definition resetReaders (it : LDBIter) : LDBIter :=
  {| iter_ := iter_ it;
     currKey_ := currKey_ it;
     currValue_ := currValue_ it;
     currKeyReader_ := resetPosition (currKeyReader_ it);
     currValueReader_ := resetPosition (currValueReader_ it);
     isDirty_ := isDirty_ it |}.

(** Modelled from the spec: the converting constructor
    [LDBIter(LMDB::Iterator&& move)] is only declared in the header.  It
    takes over the cursor; key and value are materialised lazily, so the
    buffers start empty and the iterator starts dirty. *)
Definition LDBIter_of_Iterator (mv : Iterator) : LDBIter :=
  {| iter_ := mv;
     currKey_ := [];
     currValue_ := [];
     currKeyReader_ := {| bdRef_ := []; pos_ := 0 |};
     currValueReader_ := {| bdRef_ := []; pos_ := 0 |};
     isDirty_ := true |}.

(** ** [LMDBBlockDatabase] (lmdb_wrapper.h, lines 229-688) *)

(** The members the inline methods read.  [dbEnv_] is a
    [map<DB_SELECT, shared_ptr<LMDBEnv>>]: a key may be absent, and a
    present key may hold a null pointer.  [dbs_] is the array
    [LMDB dbs_[COUNT]], total over the selectors. *)
Record LMDBBlockDatabase : Type := mkLMDBBlockDatabase {
  armoryDbType_ : ARMORY_DB_TYPE;
  dbPruneType_ : DB_PRUNE_TYPE;
  dbEnv_ : gmap DB_SELECT LMDBEnv_ptr;
  dbs_ : DB_SELECT -> LMDB;
  dbIsOpen_ : bool
}.

(** [std::map::operator[]]: the mapped pointer, after inserting a null
    pointer for a key that was absent. *)
Definition map_subscript (m : gmap DB_SELECT LMDBEnv_ptr) (k : DB_SELECT)
  : gmap DB_SELECT LMDBEnv_ptr * LMDBEnv_ptr :=
  match m !! k with
  | Some p => (m, p)
  | None => (<[k := None]> m, None)
  end.

(** What [dbEnv_[k].get()] evaluates to in a given state. *)
Definition env_of (self : LMDBBlockDatabase) (k : DB_SELECT) : LMDBEnv_ptr :=
  (map_subscript (dbEnv_ self) k).2.

Definition set_dbEnv (self : LMDBBlockDatabase)
  (m : gmap DB_SELECT LMDBEnv_ptr) : LMDBBlockDatabase :=
  {| armoryDbType_ := armoryDbType_ self;
     dbPruneType_ := dbPruneType_ self;
     dbEnv_ := m;
     dbs_ := dbs_ self;
     dbIsOpen_ := dbIsOpen_ self |}.

(** [[
   void beginDBTransaction(LMDBEnv::Transaction* tx,
      DB_SELECT db, LMDB::Mode mode) const
   {
      if (armoryDbType_ == ARMORY_DB_SUPER)
         *tx = move(LMDBEnv::Transaction(dbEnv_[BLKDATA].get(), mode));
      else
         *tx = move(LMDBEnv::Transaction(dbEnv_[db].get(), mode));
   }
    ]]
    The result is the object after the call ([dbEnv_] is [mutable], and the
    subscript may insert) and the transaction stored through [tx]. *)
Definition beginDBTransaction (self : LMDBBlockDatabase)
  (db : DB_SELECT) (mode : Mode) : LMDBBlockDatabase * Transaction :=
  if decide (armoryDbType_ self = ARMORY_DB_SUPER) then
    let '(m, p) := map_subscript (dbEnv_ self) BLKDATA in
    (set_dbEnv self m, {| txn_env := p; txn_mode := mode |})
  else
    let '(m, p) := map_subscript (dbEnv_ self) db in
    (set_dbEnv self m, {| txn_env := p; txn_mode := mode |}).

(** [ARMORY_DB_TYPE getDbType(void) const { return armoryDbType_; }] *)
Definition getDbType (self : LMDBBlockDatabase) : ARMORY_DB_TYPE :=
  armoryDbType_ self.

(** [[
   DB_SELECT getDbSelect(DB_SELECT dbs) const
   {
      if (dbs == HEADERS)
         return HEADERS;
      if (armoryDbType_ == ARMORY_DB_SUPER)
         return BLKDATA;
      return dbs;
   }
    ]] *)
Definition getDbSelect (self : LMDBBlockDatabase) (dbs : DB_SELECT)
  : DB_SELECT :=
  if decide (dbs = HEADERS) then HEADERS
  else if decide (armoryDbType_ self = ARMORY_DB_SUPER) then BLKDATA
  else dbs.

(** [bool databasesAreOpen(void) { return dbIsOpen_; }] *)
Definition databasesAreOpen (self : LMDBBlockDatabase) : bool :=
  dbIsOpen_ self.

(** [[
   LDBIter getIterator(DB_SELECT db) const
   {
      return dbs_[db].begin();
   }
    ]] *)
Definition getIterator (self : LMDBBlockDatabase) (db : DB_SELECT)
  : LDBIter :=
  LDBIter_of_Iterator (LMDB_begin db (dbs_ self db)).

(** The store an iterator walks, and the entry under its cursor. *)
Definition Iterator_store (self : LMDBBlockDatabase) (it : Iterator)
  : option LMDB :=
  match iter_db it with
  | Some d => Some (dbs_ self d)
  | None => None
  end.

Definition Iterator_entry (self : LMDBBlockDatabase) (it : Iterator)
  : option (BinaryData * BinaryData) :=
  match iter_db it, iter_csr it with
  | Some d, Some i => lmdb_entries (dbs_ self d) !! i
  | _, _ => None
  end.

(** ** Key schema *)

Module Schema.

(** Modelled from the spec: the big-endian writers belong to
    [BinaryData.h], which is not among the sources; the header's comment
    names [put_uint16_t(x, BIGENDIAN)].  [put_uint_BE n x] is the [n] low
    bytes of [x], most significant first. *)
Fixpoint put_uint_BE (n : nat) (x : Z) : BinaryData :=
  match n with
  | O => []
  | S k => Z.land (Z.shiftr x (8 * Z.of_nat k)) 255 :: put_uint_BE k x
  end.

Definition WRITE_UINT32_BE (x : Z) : BinaryData := put_uint_BE 4 x.

Definition put_uint16_t_BE (x : Z) : BinaryData := put_uint_BE 2 x.

(** Modelled from the spec: [heightAndDupToHgtx(uint32_t, uint8_t)] is named
    by the header's comment and defined elsewhere.  The specification gives
    HGTX as the 4-byte big-endian composite (h:24 | d:8): the height is
    shifted over the dupID inside a 32-bit word, so only its low 24 bits
    remain. *)
Definition heightAndDupToHgtx (hgt dup : Z) : BinaryData :=
  WRITE_UINT32_BE (Z.lor (Z.shiftl hgt 8 mod 2 ^ 32) dup).

(** A composite coordinate (height, dupID, txIdx, txOutIdx). *)
Record Coord : Type := mkCoord {
  height : Z;
  dupID : Z;
  txIdx : Z;
  txOutIdx : Z
}.

(** The fields as the code types them: [uint32_t], [uint8_t], [uint16_t],
    [uint16_t]. *)
Definition Coord_wf (c : Coord) : Prop :=
  0 <= height c < 2 ^ 32 /\ 0 <= dupID c < 2 ^ 8 /\
  0 <= txIdx c < 2 ^ 16 /\ 0 <= txOutIdx c < 2 ^ 16.

(** Modelled from the spec: DBKey6 = HGTX ‖ TxIdx and
    DBKey8 = DBKey6 ‖ TxOutIdx, both indices 16-bit big-endian. *)
Definition DBKey6 (c : Coord) : BinaryData :=
  heightAndDupToHgtx (height c) (dupID c) ++ put_uint16_t_BE (txIdx c).

Definition DBKey8 (c : Coord) : BinaryData :=
  DBKey6 c ++ put_uint16_t_BE (txOutIdx c).

(** Byte-wise lexicographic order on keys, a proper prefix first: the order
    in which the key-value store keeps its entries. *)
Fixpoint BinaryData_ltb (a b : BinaryData) : bool :=
  match a, b with
  | [], [] => false
  | [], _ :: _ => true
  | _ :: _, [] => false
  | x :: a', y :: b' =>
      if x <? y then true
      else if y <? x then false
      else BinaryData_ltb a' b'
  end.

(** The height -> dupID -> txIdx -> txOutIdx lexicographic order. *)
Definition Coord_ltb (a b : Coord) : bool :=
  if height a <? height b then true
  else if height b <? height a then false
  else if dupID a <? dupID b then true
  else if dupID b <? dupID a then false
  else if txIdx a <? txIdx b then true
  else if txIdx b <? txIdx a then false
  else txOutIdx a <? txOutIdx b.

(** The coordinate as HGTX keeps it: the height reduced to 24 bits. *)
Definition Coord_in_hgtx (c : Coord) : Coord :=
  {| height := height c mod 2 ^ 24;
     dupID := dupID c;
     txIdx := txIdx c;
     txOutIdx := txOutIdx c |}.

(** The number a big-endian byte string denotes. *)
Definition BE_value (l : BinaryData) : Z :=
  fold_left (fun acc b => acc * 256 + b) l 0.

Definition is_byte (b : Z) : Prop := 0 <= b < 256.

End Schema.

(** ** Transaction lookup by hash *)

Module TxLookup.

(** Modelled from the spec: [StoredTx] is declared in [StoredBlockObj.h],
    which is not among the sources; the fields are those the specification
    lists (outputs left out: no lookup reads them). *)
Record StoredTx : Type := mkStoredTx {
  thisHash_ : BinaryData;
  dbKey6_ : BinaryData;
  dataCopy_ : BinaryData;
  numTxOut_ : Z;
  isFragged_ : bool
}.

#[global] Instance StoredTx_eq_dec : EqDecision StoredTx.
Proof. solve_decision. Defined.

(** Modelled from the spec: [StoredTxHints] = (hashPrefix(4B), [DBKey6...],
    preferredIndex). *)
Record StoredTxHints : Type := mkStoredTxHints {
  txHashPrefix_ : BinaryData;
  dbKeyList_ : list BinaryData;
  preferredIndex_ : nat
}.

(** The two stores a lookup by hash reads, seen through the stored-object
    layer: TXHINTS maps a 4-byte hash prefix to its bucket, BLKDATA maps a
    DBKey6 to the transaction stored in that slot. *)
Record TxStores : Type := mkTxStores {
  txhints_ : gmap BinaryData StoredTxHints;
  txdata_ : gmap BinaryData StoredTx
}.

(** The first four bytes of a hash. *)
Definition hashPrefix (txHash : BinaryData) : BinaryData := take 4 txHash.

(** Modelled from the spec: [getHintsForTxHash] reads the bucket of the
    hash's 4-byte prefix; a missing bucket is an empty list of hints. *)
Definition getHintsForTxHash (db : TxStores) (txHash : BinaryData)
  : StoredTxHints :=
  match txhints_ db !! hashPrefix txHash with
  | Some sths => sths
  | None => {| txHashPrefix_ := hashPrefix txHash;
               dbKeyList_ := [];
               preferredIndex_ := 0 |}
  end.

(** The walk over the candidates of a bucket: fetch each transaction,
    compare the full hash, stop at the first match.  A candidate whose slot
    is empty cannot match and is passed over. *)
Fixpoint walkHints (db : TxStores) (txHash : BinaryData)
  (hints : list BinaryData) : option (BinaryData * StoredTx) :=
  match hints with
  | [] => None
  | hint :: rest =>
      match txdata_ db !! hint with
      | Some tx =>
          if decide (thisHash_ tx = txHash) then Some (hint, tx)
          else walkHints db txHash rest
      | None => walkHints db txHash rest
      end
  end.

(** Modelled from the spec: [getStoredTx_byHash(txHash, stx, DBkey)] is
    only declared in the header.  "Looks up via TXHINTS: read the 4-byte
    prefix bucket, walk candidate DBKey6s, fetch each tx, compare full
    hash.  First match wins."  The out-arguments are optional pointers:
    [None] stands for [nullptr], [Some v] for a pointer to an object that
    holds [v]; they are written only on a match. *)
Definition getStoredTx_byHash (db : TxStores) (txHash : BinaryData)
  (stx : option StoredTx) (DBkey : option BinaryData)
  : bool * option StoredTx * option BinaryData :=
  match walkHints db txHash (dbKeyList_ (getHintsForTxHash db txHash)) with
  | Some (hint, tx) =>
      (true, (fun _ => tx) <$> stx, (fun _ => hint) <$> DBkey)
  | None => (false, stx, DBkey)
  end.

(** A candidate matches when its slot holds a transaction with the full
    hash looked for. *)
Definition matches (db : TxStores) (txHash hint : BinaryData) : Prop :=
  exists tx, txdata_ db !! hint = Some tx /\ thisHash_ tx = txHash.

End TxLookup.

(** ** The valid-duplicate table *)

Module DupTable.

Definition UINT8_MAX : Z := 255.

(** Modelled from the spec: [StoredHeadHgtList] = (height, [(dupID,
    headerHash)]); in each stored dupID byte, bit 0x80 encodes "valid". *)
Record StoredHeadHgtList : Type := mkStoredHeadHgtList {
  hhl_height_ : Z;
  dupAndHashList_ : list (Z * BinaryData)
}.

(** The table and its mirror: the in-memory map [validDupByHeight_] of the
    class, and the HEADHGT entries of the HEADERS database by height. *)
Record DupState : Type := mkDupState {
  validDupByHeight_ : gmap Z Z;
  headHgt_ : gmap Z StoredHeadHgtList
}.

Definition isValidDupByte (e : Z * BinaryData) : bool := Z.testbit e.1 7.

(** The dupID of the entry marked valid at height [blockHgt] in the
    mirror, high bit cleared. *)
Definition validDup_fromDB (st : DupState) (blockHgt : Z) : option Z :=
  match headHgt_ st !! blockHgt with
  | Some hhl =>
      match find isValidDupByte (dupAndHashList_ hhl) with
      | Some e => Some (Z.land e.1 127)
      | None => None
      end
  | None => None
  end.

(** Modelled from the spec: "returns the cached byte or queries DB on
    miss". *)
Definition lookupValidDup (st : DupState) (blockHgt : Z) : option Z :=
  match validDupByHeight_ st !! blockHgt with
  | Some dup => Some dup
  | None => validDup_fromDB st blockHgt
  end.

(** Modelled from the spec: [getValidDupIDForHeight_fromDB] and
    [getValidDupIDForHeight] return a [uint8_t]; [UINT8_MAX] (the header's
    sentinel for "no dupID given") stands for "none recorded". *)
Definition getValidDupIDForHeight_fromDB (st : DupState) (blockHgt : Z) : Z :=
  default UINT8_MAX (validDup_fromDB st blockHgt).

Definition getValidDupIDForHeight (st : DupState) (blockHgt : Z) : Z :=
  default UINT8_MAX (lookupValidDup st blockHgt).

(** Marking [dup] valid in a height's list: its byte gets bit 0x80, every
    other byte loses it. *)
Definition markValid (dup : Z) (hhl : StoredHeadHgtList) : StoredHeadHgtList :=
  {| hhl_height_ := hhl_height_ hhl;
     dupAndHashList_ :=
       map (fun e : Z * BinaryData =>
              (if Z.land e.1 127 =? Z.land dup 127
               then Z.lor e.1 128 else Z.land e.1 127, e.2))
           (dupAndHashList_ hhl) |}.

(** Modelled from the spec: [setValidDupIDForHeight(h, d, overwrite)] is
    only declared in the header.  "Updates the mirror; when overwrite=false
    and a value already exists, the call is a no-op."  The table keeps the
    dupID with the high bit cleared. *)
Definition setValidDupIDForHeight (st : DupState) (blockHgt dup : Z)
  (overwrite : bool) : DupState :=
  if negb overwrite && bool_decide (is_Some (lookupValidDup st blockHgt))
  then st
  else {| validDupByHeight_ :=
            <[blockHgt := Z.land dup 127]> (validDupByHeight_ st);
          headHgt_ := alter (markValid dup) blockHgt (headHgt_ st) |}.

End DupTable.

(** ** The notify/run rendezvous *)

Module Rendezvous.

(** Modelled from the spec: [BDM_Inject] keeps its state behind the
    pointer [pimpl], in a structure the header only declares.  The
    specification describes it as a notify count, a run-complete count and
    a failure flag. *)
Record BDM_Inject_Impl : Type := mkBDM_Inject_Impl {
  notifyCount : nat;
  runCompleteCount : nat;
  failure : bool
}.

(** A freshly constructed rendezvous. *)
Definition fresh : BDM_Inject_Impl :=
  {| notifyCount := 0; runCompleteCount := 0; failure := false |}.

(** Modelled from the spec: [notify()] wakes the worker; it counts one
    more notification. *)
Definition notify (r : BDM_Inject_Impl) : BDM_Inject_Impl :=
  {| notifyCount := S (notifyCount r);
     runCompleteCount := runCompleteCount r;
     failure := failure r |}.

(** Modelled from the spec: [setFailureFlag()] sets a sticky failure bit. *)
Definition setFailureFlag (r : BDM_Inject_Impl) : BDM_Inject_Impl :=
  {| notifyCount := notifyCount r;
     runCompleteCount := runCompleteCount r;
     failure := true |}.


(** The worker has something to run when a notification is not yet covered
    by a completed run. *)
Definition wantsToRun (r : BDM_Inject_Impl) : bool :=
  (runCompleteCount r <? notifyCount r)%nat.

(** Modelled from the spec: one wake-up of the worker.  If notifications
    are pending it calls [run()] once, and the completed run covers every
    notification counted so far (notifications coalesce); otherwise it
    goes back to sleep.  The second component counts the [run()]
    invocations completed by this wake-up. *)
Definition worker_step (r : BDM_Inject_Impl) : BDM_Inject_Impl * nat :=
  if wantsToRun r
  then ({| notifyCount := notifyCount r;
           runCompleteCount := notifyCount r;
           failure := failure r |}, 1%nat)
  else (r, 0%nat).

(** What happens at the rendezvous, in order. *)
Inductive event : Set := Notify | WorkerWakes.

(** The state after a sequence of events, and the number of [run()]
    invocations completed during it. *)
Fixpoint exec (r : BDM_Inject_Impl) (evs : list event)
  : BDM_Inject_Impl * nat :=
  match evs with
  | [] => (r, 0%nat)
  | Notify :: rest => exec (notify r) rest
  | WorkerWakes :: rest =>
      let '(r1, n) := worker_step r in
      let '(r2, m) := exec r1 rest in
      (r2, (n + m)%nat)
  end.

End Rendezvous.

(** ** Concrete states

    The states on which the properties of Part II are exercised. *)

(** A Supernode database whose two environments are both open: the headers
    environment at address 1, the blocks environment at address 2. *)
Definition supernode_two_envs : LMDBBlockDatabase :=
  {| armoryDbType_ := ARMORY_DB_SUPER;
     dbPruneType_ := DB_PRUNE_NONE;
     dbEnv_ := <[HEADERS := Some 1%nat]> (<[BLKDATA := Some 2%nat]> ∅);
     dbs_ := fun _ => {| lmdb_entries := [] |};
     dbIsOpen_ := true |}.

(** A Supernode database whose HISTORY and BLKDATA stores hold different
    entries. *)
Definition supernode_history_blkdata : LMDBBlockDatabase :=
  {| armoryDbType_ := ARMORY_DB_SUPER;
     dbPruneType_ := DB_PRUNE_NONE;
     dbEnv_ := <[BLKDATA := Some 2%nat]> ∅;
     dbs_ := fun d => match d with
                      | HISTORY => {| lmdb_entries := [([7], [70])] |}
                      | BLKDATA => {| lmdb_entries := [([3], [30])] |}
                      | _ => {| lmdb_entries := [] |}
                      end;
     dbIsOpen_ := true |}.

(** Scenario "hint collision": two transactions whose hashes share their
    first four bytes, in the slots (10, 0, 1) and (11, 0, 4). *)
Definition collidingHash1 : BinaryData := [171; 205; 239; 1] ++ replicate 28 1.
Definition collidingHash2 : BinaryData := [171; 205; 239; 1] ++ replicate 28 2.

Definition collidingTx1 : TxLookup.StoredTx :=
  {| TxLookup.thisHash_ := collidingHash1;
     TxLookup.dbKey6_ := [0; 0; 10; 0; 0; 1];
     TxLookup.dataCopy_ := [1];
     TxLookup.numTxOut_ := 1;
     TxLookup.isFragged_ := false |}.

Definition collidingTx2 : TxLookup.StoredTx :=
  {| TxLookup.thisHash_ := collidingHash2;
     TxLookup.dbKey6_ := [0; 0; 11; 0; 0; 4];
     TxLookup.dataCopy_ := [2];
     TxLookup.numTxOut_ := 2;
     TxLookup.isFragged_ := false |}.

Definition collidingStores : TxLookup.TxStores :=
  {| TxLookup.txhints_ :=
       {[ [171; 205; 239; 1] :=
            {| TxLookup.txHashPrefix_ := [171; 205; 239; 1];
               TxLookup.dbKeyList_ := [[0; 0; 10; 0; 0; 1]; [0; 0; 11; 0; 0; 4]];
               TxLookup.preferredIndex_ := 0 |} ]};
     TxLookup.txdata_ :=
       <[ [0; 0; 10; 0; 0; 1] := collidingTx1 ]>
         (<[ [0; 0; 11; 0; 0; 4] := collidingTx2 ]> ∅) |}.

(** The bucket of that scenario, as it is stored under the shared
    prefix. *)
Definition collidingBucket : TxLookup.StoredTxHints :=
  {| TxLookup.txHashPrefix_ := [171; 205; 239; 1];
     TxLookup.dbKeyList_ := [[0; 0; 10; 0; 0; 1]; [0; 0; 11; 0; 0; 4]];
     TxLookup.preferredIndex_ := 0 |}.

(** A table that records dupID 1 at height 3, and a mirror that marks
    dupID 2 (stored byte 0x82) valid at height 4. *)
Definition dupStateExample : DupTable.DupState :=
  {| DupTable.validDupByHeight_ := {[ 3 := 1 ]};
     DupTable.headHgt_ :=
       {[ 4 := {| DupTable.hhl_height_ := 4;
                  DupTable.dupAndHashList_ :=
                    [(0, replicate 32 7); (130, replicate 32 8)] |} ]} |}.

(** ** Further members of the headers *)

(** The selector [beginDBTransaction] subscripts [dbEnv_] with: the
    constant [BLKDATA] in the first branch, its argument in the second. *)
Definition subscripted_selector (self : LMDBBlockDatabase) (db : DB_SELECT)
  : DB_SELECT :=
  if decide (armoryDbType_ self = ARMORY_DB_SUPER) then BLKDATA else db.

(** [[
   string dbBlkdataFilename() const { return baseDir_ + "/blocks";  }
   string dbHeadersFilename() const { return baseDir_ + "/headers"; }
   string dbHistoryFilename() const { return baseDir_ + "/history"; }
   string dbTxhintsFilename() const { return baseDir_ + "/txhints"; }
    ]]
    The private member [baseDir_] is the argument. *)
Definition dbBlkdataFilename (baseDir_ : string) : string :=
  String.append baseDir_ "/blocks".

Definition dbHeadersFilename (baseDir_ : string) : string :=
  String.append baseDir_ "/headers".

Definition dbHistoryFilename (baseDir_ : string) : string :=
  String.append baseDir_ "/history".

Definition dbTxhintsFilename (baseDir_ : string) : string :=
  String.append baseDir_ "/txhints".

(** [struct BlockDataManagerConfig] (BlockDataManagerConfig.h, lines
    31-60): its data members, in declaration order. *)
Record BlockDataManagerConfig : Type := mkBlockDataManagerConfig {
  armoryDbType : ARMORY_DB_TYPE;
  pruneType : DB_PRUNE_TYPE;
  blkFileLocation : string;
  levelDBLocation : string;
  genesisBlockHash : BinaryData;
  genesisTxHash : BinaryData;
  magicBytes : BinaryData
}.

(** [void setGenesisBlockHash(const BinaryData &h) { genesisBlockHash = h; }] *)
Definition setGenesisBlockHash (self : BlockDataManagerConfig)
  (h : BinaryData) : BlockDataManagerConfig :=
  {| armoryDbType := armoryDbType self;
     pruneType := pruneType self;
     blkFileLocation := blkFileLocation self;
     levelDBLocation := levelDBLocation self;
     genesisBlockHash := h;
     genesisTxHash := genesisTxHash self;
     magicBytes := magicBytes self |}.

(** [void setGenesisTxHash(const BinaryData &h) { genesisTxHash = h; }] *)
Definition setGenesisTxHash (self : BlockDataManagerConfig)
  (h : BinaryData) : BlockDataManagerConfig :=
  {| armoryDbType := armoryDbType self;
     pruneType := pruneType self;
     blkFileLocation := blkFileLocation self;
     levelDBLocation := levelDBLocation self;
     genesisBlockHash := genesisBlockHash self;
     genesisTxHash := h;
     magicBytes := magicBytes self |}.

(** [void setMagicBytes(const BinaryData &h) { magicBytes = h; }] *)
Definition setMagicBytes (self : BlockDataManagerConfig)
  (h : BinaryData) : BlockDataManagerConfig :=
  {| armoryDbType := armoryDbType self;
     pruneType := pruneType self;
     blkFileLocation := blkFileLocation self;
     levelDBLocation := levelDBLocation self;
     genesisBlockHash := genesisBlockHash self;
     genesisTxHash := genesisTxHash self;
     magicBytes := h |}.

(** A Fullnode database that has opened the blocks environment only. *)
Definition fullnode_blocks_only : LMDBBlockDatabase :=
  {| armoryDbType_ := ARMORY_DB_FULL;
     dbPruneType_ := DB_PRUNE_NONE;
     dbEnv_ := <[BLKDATA := Some 2%nat]> ∅;
     dbs_ := fun _ => {| lmdb_entries := [] |};
     dbIsOpen_ := true |}.

(** The same database in the mode [ARMORY_DB_WHATEVER]. *)
Definition whatever_blocks_only : LMDBBlockDatabase :=
  {| armoryDbType_ := ARMORY_DB_WHATEVER;
     dbPruneType_ := DB_PRUNE_NONE;
     dbEnv_ := <[BLKDATA := Some 2%nat]> ∅;
     dbs_ := fun _ => {| lmdb_entries := [] |};
     dbIsOpen_ := true |}.

(* ===================================================================== *)
(** * Part II: properties *)
(* ===================================================================== *)

(** ** [getDbSelect]: the Supernode folding rule *)

Section DbSelect.

Variable self : LMDBBlockDatabase.

Lemma getDbSelect_HEADERS : getDbSelect self HEADERS = HEADERS.
Proof. reflexivity. Qed.

Lemma getDbSelect_super (dbs : DB_SELECT) :
  armoryDbType_ self = ARMORY_DB_SUPER -> dbs <> HEADERS ->
  getDbSelect self dbs = BLKDATA.
Proof.
  intros Hsuper Hdbs. unfold getDbSelect.
  destruct (decide (dbs = HEADERS)) as [Heq | _]; [contradiction |].
  destruct (decide (armoryDbType_ self = ARMORY_DB_SUPER)); congruence.
Qed.

Lemma getDbSelect_not_super (dbs : DB_SELECT) :
  armoryDbType_ self <> ARMORY_DB_SUPER -> getDbSelect self dbs = dbs.
Proof.
  intros Hmode. unfold getDbSelect.
  destruct (decide (dbs = HEADERS)) as [-> | _]; [reflexivity |].
  destruct (decide (armoryDbType_ self = ARMORY_DB_SUPER)); congruence.
Qed.

(** In Supernode mode only two stores are ever selected. *)
Lemma getDbSelect_super_range (dbs : DB_SELECT) :
  armoryDbType_ self = ARMORY_DB_SUPER ->
  getDbSelect self dbs = HEADERS \/ getDbSelect self dbs = BLKDATA.
Proof.
  intros Hsuper. destruct (decide (dbs = HEADERS)) as [-> | Hne].
  - left. apply getDbSelect_HEADERS.
  - right. apply getDbSelect_super; assumption.
Qed.

(** Folding twice is folding once. *)
Lemma getDbSelect_idempotent (dbs : DB_SELECT) :
  getDbSelect self (getDbSelect self dbs) = getDbSelect self dbs.
Proof.
  unfold getDbSelect.
  destruct (decide (dbs = HEADERS)) as [-> | Hne]; [reflexivity |].
  destruct (decide (armoryDbType_ self = ARMORY_DB_SUPER)) as [Hs | Hs].
  - destruct (decide (BLKDATA = HEADERS)); [discriminate | reflexivity].
  - destruct (decide (dbs = HEADERS)); [contradiction | reflexivity].
Qed.

End DbSelect.

(** C2.  For every database type and every selector: [getDbSelect] answers
    [HEADERS] for [HEADERS] whatever the mode; for any other selector it
    answers [BLKDATA] when the type is [ARMORY_DB_SUPER], and the selector
    itself in every other mode. *)
Theorem getDbSelect_folding_rule (self : LMDBBlockDatabase) (dbs : DB_SELECT) :
  getDbSelect self dbs =
    match dbs, armoryDbType_ self with
    | HEADERS, _ => HEADERS
    | _, ARMORY_DB_SUPER => BLKDATA
    | _, _ => dbs
    end.
Proof.
  destruct dbs; [apply getDbSelect_HEADERS | ..];
    (destruct (armoryDbType_ self) eqn:Hmode;
     [ apply getDbSelect_not_super; congruence ..
     | apply getDbSelect_super; [assumption | discriminate]
     | apply getDbSelect_not_super; congruence ]).
Qed.

(** ** [beginDBTransaction] *)

Section BeginTransaction.

Variable self : LMDBBlockDatabase.

Lemma map_subscript_snd (m : gmap DB_SELECT LMDBEnv_ptr) (k : DB_SELECT) :
  (map_subscript m k).2 = default None (m !! k).
Proof. unfold map_subscript. destruct (m !! k); reflexivity. Qed.

(** The subscript may insert a null pointer, which changes no later read. *)
Lemma map_subscript_fst_lookup (m : gmap DB_SELECT LMDBEnv_ptr)
  (k k' : DB_SELECT) :
  default None ((map_subscript m k).1 !! k') = default None (m !! k').
Proof.
  unfold map_subscript. destruct (m !! k) eqn:Hk; [reflexivity |].
  cbn [fst]. destruct (decide (k = k')) as [<- | Hne].
  - rewrite lookup_insert_eq, Hk. reflexivity.
  - rewrite lookup_insert_ne by assumption. reflexivity.
Qed.

Lemma beginDBTransaction_super (db : DB_SELECT) (mode : Mode) :
  armoryDbType_ self = ARMORY_DB_SUPER ->
  (beginDBTransaction self db mode).2 =
    {| txn_env := env_of self BLKDATA; txn_mode := mode |}.
Proof.
  intros Hsuper. unfold beginDBTransaction, env_of.
  destruct (decide (armoryDbType_ self = ARMORY_DB_SUPER)); [| contradiction].
  destruct (map_subscript (dbEnv_ self) BLKDATA); reflexivity.
Qed.

Lemma beginDBTransaction_not_super (db : DB_SELECT) (mode : Mode) :
  armoryDbType_ self <> ARMORY_DB_SUPER ->
  (beginDBTransaction self db mode).2 =
    {| txn_env := env_of self db; txn_mode := mode |}.
Proof.
  intros Hmode. unfold beginDBTransaction, env_of.
  destruct (decide (armoryDbType_ self = ARMORY_DB_SUPER)); [contradiction |].
  destruct (map_subscript (dbEnv_ self) db); reflexivity.
Qed.

(** The call is [const] to an observer: mode, stores and every later
    [dbEnv_[k].get()] are as before. *)
Lemma beginDBTransaction_frame (db : DB_SELECT) (mode : Mode) (k : DB_SELECT) :
  armoryDbType_ (beginDBTransaction self db mode).1 = armoryDbType_ self /\
  dbs_ (beginDBTransaction self db mode).1 = dbs_ self /\
  env_of (beginDBTransaction self db mode).1 k = env_of self k.
Proof.
  unfold beginDBTransaction, env_of.
  destruct (decide (armoryDbType_ self = ARMORY_DB_SUPER)).
  - pose proof (map_subscript_fst_lookup (dbEnv_ self) BLKDATA k) as Hk.
    destruct (map_subscript (dbEnv_ self) BLKDATA) as [m p]; cbn in *.
    rewrite !map_subscript_snd. auto.
  - pose proof (map_subscript_fst_lookup (dbEnv_ self) db k) as Hk.
    destruct (map_subscript (dbEnv_ self) db) as [m p]; cbn in *.
    rewrite !map_subscript_snd. auto.
Qed.

End BeginTransaction.

(** C1 (as amended).  For every selector and transaction mode,
    [beginDBTransaction] opens the transaction in the requested mode; in
    Supernode mode it opens it on the [BLKDATA] environment for every
    selector, [HEADERS] included, and in every other mode on the
    environment [dbEnv_[db]] of the selector itself. *)
Theorem beginDBTransaction_env (self : LMDBBlockDatabase)
  (db : DB_SELECT) (mode : Mode) :
  txn_mode (beginDBTransaction self db mode).2 = mode /\
  txn_env (beginDBTransaction self db mode).2 =
    env_of self (match armoryDbType_ self with
                 | ARMORY_DB_SUPER => BLKDATA
                 | _ => db
                 end).
Proof.
  destruct (armoryDbType_ self) eqn:Hmode;
    first [ rewrite beginDBTransaction_super by assumption
          | rewrite beginDBTransaction_not_super by congruence ];
    split; reflexivity.
Qed.

(** C1 as stated fails: in Supernode mode the folding rule keeps [HEADERS]
    on its own environment (address 1), yet a transaction begun for
    [HEADERS] is opened on the [BLKDATA] environment (address 2). *)
Lemma beginDBTransaction_HEADERS_not_folded :
  armoryDbType_ supernode_two_envs = ARMORY_DB_SUPER /\
  getDbSelect supernode_two_envs HEADERS = HEADERS /\
  env_of supernode_two_envs (getDbSelect supernode_two_envs HEADERS)
    = Some 1%nat /\
  txn_env (beginDBTransaction supernode_two_envs HEADERS ReadOnly).2
    = Some 2%nat /\
  txn_env (beginDBTransaction supernode_two_envs HEADERS ReadOnly).2
    <> env_of supernode_two_envs (getDbSelect supernode_two_envs HEADERS).
Proof.
  assert (Hh : env_of supernode_two_envs HEADERS = Some 1%nat).
  { unfold env_of. rewrite map_subscript_snd. cbn [dbEnv_ supernode_two_envs].
    rewrite lookup_insert_eq. reflexivity. }
  assert (Hb : env_of supernode_two_envs BLKDATA = Some 2%nat).
  { unfold env_of. rewrite map_subscript_snd. cbn [dbEnv_ supernode_two_envs].
    rewrite lookup_insert_ne by discriminate.
    rewrite lookup_insert_eq. reflexivity. }
  rewrite getDbSelect_HEADERS, beginDBTransaction_super by reflexivity.
  cbn [txn_env]. rewrite Hh, Hb.
  repeat split; discriminate.
Qed.

(** ** [getIterator] *)

Section GetIterator.

Variable self : LMDBBlockDatabase.

Lemma getIterator_unfold (db : DB_SELECT) :
  getIterator self db = LDBIter_of_Iterator (LMDB_begin db (dbs_ self db)).
Proof. reflexivity. Qed.

Lemma getIterator_db (db : DB_SELECT) :
  iter_db (iter_ (getIterator self db)) = Some db.
Proof. reflexivity. Qed.

Lemma getIterator_entry (db : DB_SELECT) :
  Iterator_entry self (iter_ (getIterator self db))
    = head (lmdb_entries (dbs_ self db)).
Proof.
  unfold Iterator_entry, getIterator, LDBIter_of_Iterator, LMDB_begin.
  cbn [iter_ iter_db iter_csr].
  destruct (lmdb_entries (dbs_ self db)); reflexivity.
Qed.

(** A fresh iterator is valid exactly when its store has an entry. *)
Lemma getIterator_isValid (db : DB_SELECT) :
  Iterator_isValid (dbs_ self db) (iter_ (getIterator self db))
    = negb (bool_decide (lmdb_entries (dbs_ self db) = [])).
Proof.
  unfold Iterator_isValid, getIterator, LDBIter_of_Iterator, LMDB_begin.
  cbn [iter_ iter_csr].
  destruct (lmdb_entries (dbs_ self db)) as [| e l]; [reflexivity |].
  cbn [length]. rewrite bool_decide_eq_true_2 by lia.
  rewrite bool_decide_eq_false_2 by discriminate. reflexivity.
Qed.

End GetIterator.

(** C10.  For every selector and in every mode, [getIterator db] is the
    iterator [dbs_[db].begin()] over the store named by the literal
    argument: it walks [dbs_[db]], starts on that store's first entry, and
    wherever the folding rule [getDbSelect] would pick another store the
    iterator does not walk that one; in particular, in [ARMORY_DB_SUPER]
    mode [getIterator HISTORY] walks HISTORY although the folding rule
    sends HISTORY to BLKDATA. *)
Theorem getIterator_ignores_folding (self : LMDBBlockDatabase)
  (db : DB_SELECT) :
  getIterator self db = LDBIter_of_Iterator (LMDB_begin db (dbs_ self db)) /\
  iter_db (iter_ (getIterator self db)) = Some db /\
  Iterator_store self (iter_ (getIterator self db)) = Some (dbs_ self db) /\
  Iterator_entry self (iter_ (getIterator self db))
    = head (lmdb_entries (dbs_ self db)) /\
  (getDbSelect self db <> db ->
   iter_db (iter_ (getIterator self db)) <> Some (getDbSelect self db)) /\
  (armoryDbType_ self = ARMORY_DB_SUPER ->
   getDbSelect self HISTORY = BLKDATA /\
   iter_db (iter_ (getIterator self HISTORY)) = Some HISTORY /\
   iter_db (iter_ (getIterator self HISTORY)) <> Some BLKDATA).
Proof.
  split; [apply getIterator_unfold |].
  split; [apply getIterator_db |].
  split; [reflexivity |].
  split; [apply getIterator_entry |].
  split.
  - intros Hfold. rewrite getIterator_db. congruence.
  - intros Hsuper. split; [| split].
    + apply getDbSelect_super; [assumption | discriminate].
    + apply getIterator_db.
    + rewrite getIterator_db. discriminate.
Qed.

(** On that database [getIterator HISTORY] stands on the HISTORY entry. *)
Lemma getIterator_ignores_folding_witness :
  Iterator_entry supernode_history_blkdata
    (iter_ (getIterator supernode_history_blkdata HISTORY))
    = Some ([7], [70]) /\
  getDbSelect supernode_history_blkdata HISTORY = BLKDATA /\
  iter_db (iter_ (getIterator supernode_history_blkdata HISTORY))
    <> Some BLKDATA.
Proof.
  pose proof (getIterator_ignores_folding supernode_history_blkdata HISTORY)
    as (_ & _ & _ & Hentry & _ & Hsuper).
  destruct (Hsuper eq_refl) as (Hsel & _ & Hne).
  split; [exact Hentry | split; [exact Hsel | exact Hne]].
Defined.

(** ** [LDBIter::resetReaders] *)

Section ResetReaders.

Variable it : LDBIter.

Lemma resetPosition_pos (r : BinaryRefReader) : pos_ (resetPosition r) = 0.
Proof. reflexivity. Qed.

Lemma resetPosition_bdRef (r : BinaryRefReader) :
  bdRef_ (resetPosition r) = bdRef_ r.
Proof. reflexivity. Qed.

Lemma resetPosition_idempotent (r : BinaryRefReader) :
  resetPosition (resetPosition r) = resetPosition r.
Proof. reflexivity. Qed.

Lemma resetReaders_idempotent :
  resetReaders (resetReaders it) = resetReaders it.
Proof.
  unfold resetReaders. cbn [iter_ currKey_ currValue_ currKeyReader_
                             currValueReader_ isDirty_].
  rewrite !resetPosition_idempotent. reflexivity.
Qed.

Lemma resetReaders_iter (n : nat) :
  Nat.iter (S n) resetReaders it = resetReaders it.
Proof.
  induction n as [| n IH]; [reflexivity |].
  change (Nat.iter (S (S n)) resetReaders it)
    with (resetReaders (Nat.iter (S n) resetReaders it)).
  rewrite IH. apply resetReaders_idempotent.
Qed.

End ResetReaders.

(** C8.  For every iterator state, [resetReaders] only puts the positions
    of the key reader and of the value reader back to 0: the cursor is the
    same (so [isValid] and [isNull] answer as before), the current key
    and value, the slices the readers view and the dirty flag are the same,
    and any number of consecutive calls leaves what one call leaves. *)
Theorem resetReaders_only_resets_positions (it : LDBIter) :
  pos_ (currKeyReader_ (resetReaders it)) = 0 /\
  pos_ (currValueReader_ (resetReaders it)) = 0 /\
  iter_ (resetReaders it) = iter_ it /\
  (forall store : LMDB,
     isValid store (resetReaders it) = isValid store it /\
     isNull store (resetReaders it) = isNull store it) /\
  currKey_ (resetReaders it) = currKey_ it /\
  currValue_ (resetReaders it) = currValue_ it /\
  bdRef_ (currKeyReader_ (resetReaders it)) = bdRef_ (currKeyReader_ it) /\
  bdRef_ (currValueReader_ (resetReaders it))
    = bdRef_ (currValueReader_ it) /\
  isDirty_ (resetReaders it) = isDirty_ it /\
  (forall n : nat, Nat.iter (S n) resetReaders it = resetReaders it).
Proof.
  repeat match goal with |- _ /\ _ => split end;
    try reflexivity.
  - intros store. split; reflexivity.
  - intros n. apply resetReaders_iter.
Qed.

(** ** Key ordering *)

Section KeyOrder.

Import Schema.

(** *** Big-endian byte strings as numbers *)

Lemma BE_value_fold (l : BinaryData) (acc : Z) :
  fold_left (fun a b => a * 256 + b) l acc
    = acc * 256 ^ Z.of_nat (length l) + BE_value l.
Proof.
  unfold BE_value. revert acc.
  induction l as [| b l IH]; intros acc; cbn [fold_left length].
  - change (256 ^ Z.of_nat 0) with 1. lia.
  - rewrite IH, (IH (0 * 256 + b)).
    rewrite Nat2Z.inj_succ, Z.pow_succ_r by lia. lia.
Qed.

Lemma BE_value_cons (b : Z) (l : BinaryData) :
  BE_value (b :: l) = b * 256 ^ Z.of_nat (length l) + BE_value l.
Proof.
  unfold BE_value at 1. cbn [fold_left]. rewrite BE_value_fold. lia.
Qed.

Lemma BE_value_app (l1 l2 : BinaryData) :
  BE_value (l1 ++ l2)
    = BE_value l1 * 256 ^ Z.of_nat (length l2) + BE_value l2.
Proof.
  unfold BE_value at 1. rewrite fold_left_app.
  rewrite BE_value_fold. reflexivity.
Qed.

Lemma BE_value_bound (l : BinaryData) :
  Forall is_byte l -> 0 <= BE_value l < 256 ^ Z.of_nat (length l).
Proof.
  induction 1 as [| b l Hb _ IH].
  - cbn. lia.
  - rewrite BE_value_cons. cbn [length].
    rewrite Nat2Z.inj_succ, Z.pow_succ_r by lia.
    unfold is_byte in Hb. nia.
Qed.

(** Two keys of one length compare as the numbers they spell. *)
Lemma BinaryData_ltb_BE_value (l1 l2 : BinaryData) :
  length l1 = length l2 -> Forall is_byte l1 -> Forall is_byte l2 ->
  BinaryData_ltb l1 l2 = (BE_value l1 <? BE_value l2).
Proof.
  intros Hlen H1. revert l2 Hlen.
  induction H1 as [| x l1 Hx H1 IH]; intros l2 Hlen H2.
  - destruct l2; [reflexivity | discriminate].
  - destruct H2 as [| y l2 Hy H2]; [discriminate |].
    injection Hlen as Hlen.
    cbn [BinaryData_ltb]. rewrite !BE_value_cons, <- Hlen.
    pose proof (BE_value_bound l1 H1) as B1.
    pose proof (BE_value_bound l2 H2) as B2.
    rewrite <- Hlen in B2.
    specialize (IH l2 Hlen H2).
    set (P := 256 ^ Z.of_nat (length l1)) in *.
    destruct (Z.ltb_spec x y) as [Hxy | Hxy].
    + symmetry. apply Z.ltb_lt. nia.
    + destruct (Z.ltb_spec y x) as [Hyx | Hyx].
      * symmetry. apply Z.ltb_ge. nia.
      * assert (x = y) as -> by lia. rewrite IH.
        destruct (Z.ltb_spec (BE_value l1) (BE_value l2));
          symmetry; [apply Z.ltb_lt | apply Z.ltb_ge]; lia.
Qed.

(** *** Big-endian writers *)

Lemma put_uint_BE_length (n : nat) (x : Z) : length (put_uint_BE n x) = n.
Proof. induction n as [| n IH]; cbn; [reflexivity | rewrite IH; reflexivity]. Qed.

Lemma land_255_is_byte (x : Z) : is_byte (Z.land x 255).
Proof.
  change 255 with (Z.ones 8). rewrite Z.land_ones by lia.
  unfold is_byte. change (2 ^ 8) with 256. apply Z.mod_pos_bound. lia.
Qed.

Lemma put_uint_BE_bytes (n : nat) (x : Z) : Forall is_byte (put_uint_BE n x).
Proof.
  induction n as [| n IH]; cbn [put_uint_BE]; constructor;
    [apply land_255_is_byte | exact IH].
Qed.

(** The writer keeps exactly the [n] low bytes of its argument. *)
Lemma BE_value_put_uint_BE (n : nat) (x : Z) :
  BE_value (put_uint_BE n x) = x mod 256 ^ Z.of_nat n.
Proof.
  induction n as [| n IH].
  - cbn. rewrite Z.mod_1_r. reflexivity.
  - cbn [put_uint_BE]. rewrite BE_value_cons, put_uint_BE_length, IH.
    change 255 with (Z.ones 8). rewrite Z.land_ones by lia.
    rewrite Z.shiftr_div_pow2 by lia.
    replace (2 ^ (8 * Z.of_nat n)) with (256 ^ Z.of_nat n)
      by (change 256 with (2 ^ 8); rewrite <- Z.pow_mul_r by lia; reflexivity).
    change (2 ^ 8) with 256.
    rewrite Nat2Z.inj_succ, Z.pow_succ_r by lia.
    rewrite (Z.mul_comm 256), Z.rem_mul_r by lia. lia.
Qed.

(** *** The HGTX word *)

Lemma land_shifted_low (a d : Z) :
  0 <= d < 256 -> Z.land (a * 256) d = 0.
Proof.
  intros Hd. apply Z.bits_inj'. intros n Hn.
  rewrite Z.land_spec, Z.bits_0.
  destruct (Z.lt_ge_cases n 8) as [Hlow | Hhigh].
  - change 256 with (2 ^ 8). rewrite <- Z.shiftl_mul_pow2 by lia.
    rewrite Z.shiftl_spec_low by assumption. reflexivity.
  - rewrite <- (Z.mod_small d (2 ^ 8)) by (change (2 ^ 8) with 256; lia).
    rewrite Z.mod_pow2_bits_high by lia. apply andb_false_r.
Qed.

(** The 32-bit word behind HGTX: the low 24 bits of the height over the
    dupID. *)
Lemma hgtx_word (hgt dup : Z) :
  0 <= dup < 256 ->
  Z.lor (Z.shiftl hgt 8 mod 2 ^ 32) dup = (hgt mod 2 ^ 24) * 256 + dup.
Proof.
  intros Hd. rewrite Z.shiftl_mul_pow2 by lia.
  change (2 ^ 32) with (2 ^ 24 * 2 ^ 8). change (2 ^ 8) with 256.
  rewrite Z.mul_mod_distr_r by lia.
  symmetry. apply Z.add_nocarry_lor, land_shifted_low, Hd.
Qed.

Lemma BE_value_heightAndDupToHgtx (hgt dup : Z) :
  0 <= dup < 256 ->
  BE_value (heightAndDupToHgtx hgt dup) = (hgt mod 2 ^ 24) * 256 + dup.
Proof.
  intros Hd. unfold heightAndDupToHgtx, WRITE_UINT32_BE.
  rewrite BE_value_put_uint_BE, hgtx_word by assumption.
  pose proof (Z.mod_pos_bound hgt (2 ^ 24) ltac:(lia)) as Hh.
  apply Z.mod_small. change (256 ^ Z.of_nat 4) with (2 ^ 24 * 256). lia.
Qed.

Lemma DBKey8_length (c : Coord) : length (DBKey8 c) = 8%nat.
Proof.
  unfold DBKey8, DBKey6, heightAndDupToHgtx, WRITE_UINT32_BE, put_uint16_t_BE.
  rewrite !length_app, !put_uint_BE_length. reflexivity.
Qed.

Lemma DBKey8_bytes (c : Coord) : Forall is_byte (DBKey8 c).
Proof.
  unfold DBKey8, DBKey6, heightAndDupToHgtx, WRITE_UINT32_BE, put_uint16_t_BE.
  rewrite !Forall_app. repeat split; apply put_uint_BE_bytes.
Qed.

(** The number an 8-byte key spells. *)
Lemma BE_value_DBKey8 (c : Coord) :
  Coord_wf c ->
  BE_value (DBKey8 c)
    = (((height c mod 2 ^ 24) * 256 + dupID c) * 65536 + txIdx c) * 65536
      + txOutIdx c.
Proof.
  intros (Hh & Hd & Hi & Ho). unfold DBKey8, DBKey6, put_uint16_t_BE.
  rewrite !BE_value_app, !put_uint_BE_length, !BE_value_put_uint_BE.
  rewrite BE_value_heightAndDupToHgtx by (change (2 ^ 8) with 256 in Hd; lia).
  change (256 ^ Z.of_nat 2) with 65536.
  change (2 ^ 16) with 65536 in Hi, Ho.
  rewrite (Z.mod_small (txIdx c)), (Z.mod_small (txOutIdx c)) by lia.
  reflexivity.
Qed.

(** *** The coordinate order *)

Lemma Coord_ltb_spec (a b : Coord) :
  Coord_ltb a b = true <->
  height a < height b \/
  (height a = height b /\
   (dupID a < dupID b \/
    (dupID a = dupID b /\
     (txIdx a < txIdx b \/
      (txIdx a = txIdx b /\ txOutIdx a < txOutIdx b))))).
Proof.
  unfold Coord_ltb.
  repeat match goal with
         | |- context [?x <? ?y] => destruct (Z.ltb_spec x y)
         end; split; intros Hlt; try discriminate; try reflexivity; lia.
Qed.

(** Keys order coordinates by (height mod 2^24, dupID, txIdx, txOutIdx). *)
Lemma DBKey8_ltb_in_hgtx (a b : Coord) :
  Coord_wf a -> Coord_wf b ->
  BinaryData_ltb (DBKey8 a) (DBKey8 b)
    = Coord_ltb (Coord_in_hgtx a) (Coord_in_hgtx b).
Proof.
  intros Ha Hb.
  rewrite BinaryData_ltb_BE_value
    by (rewrite ?DBKey8_length; auto using DBKey8_bytes).
  rewrite !BE_value_DBKey8 by assumption.
  destruct Ha as (_ & Hda & Hia & Hoa), Hb as (_ & Hdb & Hib & Hob).
  change (2 ^ 8) with 256 in Hda, Hdb.
  change (2 ^ 16) with 65536 in Hia, Hoa, Hib, Hob.
  unfold Coord_ltb, Coord_in_hgtx.
  cbn [height dupID txIdx txOutIdx].
  set (ha := height a mod 2 ^ 24). set (hb := height b mod 2 ^ 24).
  repeat match goal with
         | |- context [?x <? ?y] => destruct (Z.ltb_spec x y)
         end; try reflexivity; lia.
Qed.

(** A full key is a prefix byte followed by the fields: under one prefix
    the order of the keys is the order of their tails. *)
Lemma BinaryData_ltb_same_prefix (prefix : Z) (k1 k2 : BinaryData) :
  BinaryData_ltb (prefix :: k1) (prefix :: k2) = BinaryData_ltb k1 k2.
Proof. cbn [BinaryData_ltb]. rewrite Z.ltb_irrefl. reflexivity. Qed.

Lemma BinaryData_ltb_irrefl (k : BinaryData) : BinaryData_ltb k k = false.
Proof.
  induction k as [| x k IH]; [reflexivity |].
  rewrite BinaryData_ltb_same_prefix. exact IH.
Qed.

End KeyOrder.

(** C4 (as amended).  For every two composite coordinates whose heights are
    below 2^24 (the 24 bits HGTX keeps of a height), the big-endian key
    encoding is strictly order-preserving: the key of [a] is below the key
    of [b] in lexicographic byte order exactly when [a] precedes [b] in the
    height -> dupID -> txIdx -> txOutIdx order. *)
Theorem DBKey8_order_preserving (a b : Schema.Coord) :
  Schema.Coord_wf a -> Schema.Coord_wf b ->
  Schema.height a < 2 ^ 24 -> Schema.height b < 2 ^ 24 ->
  Schema.BinaryData_ltb (Schema.DBKey8 a) (Schema.DBKey8 b)
    = Schema.Coord_ltb a b /\
  (Schema.BinaryData_ltb (Schema.DBKey8 a) (Schema.DBKey8 b) = true <->
   Schema.height a < Schema.height b \/
   (Schema.height a = Schema.height b /\
    (Schema.dupID a < Schema.dupID b \/
     (Schema.dupID a = Schema.dupID b /\
      (Schema.txIdx a < Schema.txIdx b \/
       (Schema.txIdx a = Schema.txIdx b /\
        Schema.txOutIdx a < Schema.txOutIdx b)))))).
Proof.
  intros Ha Hb Hha Hhb.
  assert (Heq : Schema.BinaryData_ltb (Schema.DBKey8 a) (Schema.DBKey8 b)
                = Schema.Coord_ltb a b).
  { rewrite DBKey8_ltb_in_hgtx by assumption.
    unfold Schema.Coord_in_hgtx.
    destruct Ha as ((Ha0 & _) & _), Hb as ((Hb0 & _) & _).
    rewrite !Z.mod_small by lia.
    destruct a, b; reflexivity. }
  split; [exact Heq |].
  rewrite Heq. apply Coord_ltb_spec.
Qed.

(** Two blocks of one height: the key of (5, 0, 1, 2) against the key of
    (5, 1, 0, 0), which differ first in the dupID. *)
Lemma DBKey8_order_preserving_witness :
  Schema.BinaryData_ltb
    (Schema.DBKey8 (Schema.mkCoord 5 0 1 2))
    (Schema.DBKey8 (Schema.mkCoord 5 1 0 0))
  = Schema.Coord_ltb (Schema.mkCoord 5 0 1 2) (Schema.mkCoord 5 1 0 0) /\
  (Schema.BinaryData_ltb
     (Schema.DBKey8 (Schema.mkCoord 5 0 1 2))
     (Schema.DBKey8 (Schema.mkCoord 5 1 0 0)) = true <->
   5 < 5 \/ (5 = 5 /\ (0 < 1 \/ (0 = 1 /\ (1 < 0 \/ (1 = 0 /\ 2 < 0)))))).
Proof.
  apply (DBKey8_order_preserving
           (Schema.mkCoord 5 0 1 2) (Schema.mkCoord 5 1 0 0));
    unfold Schema.Coord_wf; cbn; lia.
Defined.

(** C4 as stated fails: heights 0 and 2^24 are both 32-bit heights, the
    first precedes the second, and their keys are the same eight bytes. *)
Lemma DBKey8_height_wraps :
  Schema.Coord_wf (Schema.mkCoord 0 0 0 0) /\
  Schema.Coord_wf (Schema.mkCoord 16777216 0 0 0) /\
  Schema.Coord_ltb (Schema.mkCoord 0 0 0 0) (Schema.mkCoord 16777216 0 0 0)
    = true /\
  Schema.DBKey8 (Schema.mkCoord 16777216 0 0 0) = [0; 0; 0; 0; 0; 0; 0; 0] /\
  Schema.DBKey8 (Schema.mkCoord 0 0 0 0) = [0; 0; 0; 0; 0; 0; 0; 0] /\
  Schema.BinaryData_ltb
    (Schema.DBKey8 (Schema.mkCoord 0 0 0 0))
    (Schema.DBKey8 (Schema.mkCoord 16777216 0 0 0)) = false.
Proof.
  repeat split; try (cbn; lia); vm_compute; congruence.
Qed.

(** ** Transaction lookup by hash *)

Section TxLookupProps.

Import TxLookup.

Variable db : TxStores.
Variable txHash : BinaryData.

Lemma walkHints_cons_match (hint : BinaryData) (rest : list BinaryData)
  (tx : StoredTx) :
  txdata_ db !! hint = Some tx -> thisHash_ tx = txHash ->
  walkHints db txHash (hint :: rest) = Some (hint, tx).
Proof.
  intros Hget Hhash. cbn [walkHints]. rewrite Hget.
  destruct (decide (thisHash_ tx = txHash)); [reflexivity | contradiction].
Qed.

Lemma walkHints_cons_skip (hint : BinaryData) (rest : list BinaryData) :
  ~ matches db txHash hint ->
  walkHints db txHash (hint :: rest) = walkHints db txHash rest.
Proof.
  intros Hno. cbn [walkHints].
  destruct (txdata_ db !! hint) as [tx |] eqn:Hget; [| reflexivity].
  destruct (decide (thisHash_ tx = txHash)) as [Hhash | _]; [| reflexivity].
  exfalso. apply Hno. exists tx. split; assumption.
Qed.

Lemma matches_dec (hint : BinaryData) : {matches db txHash hint} + {~ matches db txHash hint}.
Proof.
  unfold matches. destruct (txdata_ db !! hint) as [tx |] eqn:Hget.
  - destruct (decide (thisHash_ tx = txHash)) as [Hhash | Hhash].
    + left. exists tx. split; [reflexivity | assumption].
    + right. intros (tx' & Heq & Hh). congruence.
  - right. intros (tx' & Heq & _). discriminate.
Qed.

(** The walk stops at the first matching candidate. *)
Lemma walkHints_first_match (hints : list BinaryData) :
  (exists hint, hint ∈ hints /\ matches db txHash hint) ->
  exists pre hint tx post,
    hints = pre ++ hint :: post /\
    Forall (fun c => ~ matches db txHash c) pre /\
    txdata_ db !! hint = Some tx /\ thisHash_ tx = txHash /\
    walkHints db txHash hints = Some (hint, tx).
Proof.
  induction hints as [| c hints IH]; intros (hint & Hin & Hm).
  - inversion Hin.
  - destruct (matches_dec c) as [(tx & Hget & Hhash) | Hno].
    + exists [], c, tx, hints. repeat split; try assumption.
      * constructor.
      * apply walkHints_cons_match; assumption.
    + apply elem_of_cons in Hin as [-> | Hin]; [contradiction |].
      destruct IH as (pre & k & tx & post & -> & Hpre & Hget & Hhash & Hwalk).
      { exists hint. split; assumption. }
      exists (c :: pre), k, tx, post. repeat split; try assumption.
      * constructor; assumption.
      * rewrite walkHints_cons_skip by assumption. exact Hwalk.
Qed.

(** With no matching candidate the walk finds nothing. *)
Lemma walkHints_no_match (hints : list BinaryData) :
  Forall (fun c => ~ matches db txHash c) hints -> walkHints db txHash hints = None.
Proof.
  induction 1 as [| c hints Hno _ IH]; [reflexivity |].
  rewrite walkHints_cons_skip by assumption. exact IH.
Qed.

(** A lookup that finds nothing answers false and writes to neither
    out-argument. *)
Lemma getStoredTx_byHash_not_found (stx : option StoredTx)
  (DBkey : option BinaryData) :
  Forall (fun c => ~ matches db txHash c) (dbKeyList_ (getHintsForTxHash db txHash)) ->
  getStoredTx_byHash db txHash stx DBkey = (false, stx, DBkey).
Proof.
  intros Hno. unfold getStoredTx_byHash.
  rewrite walkHints_no_match by assumption. reflexivity.
Qed.

End TxLookupProps.

(** The lookup in terms of the bucket it reads: if a candidate of that
    bucket matches, the answer is the first candidate that does. *)
Lemma getStoredTx_byHash_first_candidate (db : TxLookup.TxStores)
  (txHash hint : BinaryData) (tx : TxLookup.StoredTx)
  (stx : option TxLookup.StoredTx) (DBkey : option BinaryData) :
  hint ∈ TxLookup.dbKeyList_ (TxLookup.getHintsForTxHash db txHash) ->
  TxLookup.txdata_ db !! hint = Some tx ->
  TxLookup.thisHash_ tx = txHash ->
  exists pre found foundTx post,
    TxLookup.getStoredTx_byHash db txHash stx DBkey
      = (true, (fun _ => foundTx) <$> stx, (fun _ => found) <$> DBkey) /\
    TxLookup.thisHash_ foundTx = txHash /\
    TxLookup.txdata_ db !! found = Some foundTx /\
    TxLookup.dbKeyList_ (TxLookup.getHintsForTxHash db txHash)
      = pre ++ found :: post /\
    Forall (fun c => ~ TxLookup.matches db txHash c) pre.
Proof.
  intros Hin Hget Hhash.
  destruct (walkHints_first_match db txHash
              (TxLookup.dbKeyList_ (TxLookup.getHintsForTxHash db txHash)))
    as (pre & found & foundTx & post & Hsplit & Hpre & Hfget & Hfhash & Hwalk).
  { exists hint. split; [assumption |]. exists tx. split; assumption. }
  exists pre, found, foundTx, post.
  unfold TxLookup.getStoredTx_byHash. rewrite Hwalk.
  repeat split; assumption.
Qed.

(** The bucket the lookup reads is the TXHINTS entry under the first four
    bytes of the hash. *)
Lemma getHintsForTxHash_stored (db : TxLookup.TxStores)
  (txHash : BinaryData) (sths : TxLookup.StoredTxHints) :
  TxLookup.txhints_ db !! take 4 txHash = Some sths ->
  TxLookup.getHintsForTxHash db txHash = sths.
Proof.
  intros Hbucket. unfold TxLookup.getHintsForTxHash, TxLookup.hashPrefix.
  rewrite Hbucket. reflexivity.
Qed.

(** C5.  For every hash [txHash] whose transaction is stored, that is,
    the TXHINTS store holds a bucket [sths] under the first four bytes of
    [txHash], the bucket lists a key [hint], and the BLKDATA store holds
    under [hint] a transaction [tx] whose full hash is [txHash]:
    [getStoredTx_byHash] returns true and yields a stored transaction whose
    full hash is [txHash], whatever other transactions the bucket lists.
    The answer is the first key of the stored bucket whose transaction has
    that full hash; no key before it holds such a transaction. *)
Theorem getStoredTx_byHash_full_hash (db : TxLookup.TxStores)
  (txHash hint : BinaryData) (sths : TxLookup.StoredTxHints)
  (tx : TxLookup.StoredTx)
  (stx : option TxLookup.StoredTx) (DBkey : option BinaryData) :
  TxLookup.txhints_ db !! take 4 txHash = Some sths ->
  hint ∈ TxLookup.dbKeyList_ sths ->
  TxLookup.txdata_ db !! hint = Some tx ->
  TxLookup.thisHash_ tx = txHash ->
  exists pre found foundTx post,
    TxLookup.getStoredTx_byHash db txHash stx DBkey
      = (true, (fun _ => foundTx) <$> stx, (fun _ => found) <$> DBkey) /\
    TxLookup.thisHash_ foundTx = txHash /\
    TxLookup.txdata_ db !! found = Some foundTx /\
    TxLookup.dbKeyList_ sths = pre ++ found :: post /\
    Forall (fun c => forall t : TxLookup.StoredTx,
              TxLookup.txdata_ db !! c = Some t ->
              TxLookup.thisHash_ t <> txHash) pre.
Proof.
  intros Hbucket Hin Hget Hhash.
  pose proof (getHintsForTxHash_stored db txHash sths Hbucket) as Hread.
  destruct (getStoredTx_byHash_first_candidate db txHash hint tx stx DBkey)
    as (pre & found & foundTx & post & Hres & Hfhash & Hfget & Hsplit & Hpre);
    [rewrite Hread; exact Hin | exact Hget | exact Hhash |].
  rewrite Hread in Hsplit.
  exists pre, found, foundTx, post.
  repeat split; try assumption.
  eapply Forall_impl; [exact Hpre |].
  intros c Hno t Hc Ht. apply Hno. exists t. split; assumption.
Qed.

Example getStoredTx_byHash_collision_first :
  TxLookup.getStoredTx_byHash collidingStores collidingHash1
    (Some collidingTx2) (Some [])
  = (true, Some collidingTx1, Some [0; 0; 10; 0; 0; 1]).
Proof. vm_compute. reflexivity. Qed.

Example getStoredTx_byHash_collision_second :
  TxLookup.getStoredTx_byHash collidingStores collidingHash2
    (Some collidingTx1) (Some [])
  = (true, Some collidingTx2, Some [0; 0; 11; 0; 0; 4]).
Proof. vm_compute. reflexivity. Qed.

Example getStoredTx_byHash_collision_unknown :
  TxLookup.getStoredTx_byHash collidingStores
    ([171; 205; 239; 1] ++ replicate 28 3) (Some collidingTx1) None
  = (false, Some collidingTx1, None).
Proof. vm_compute. reflexivity. Qed.

(** The second transaction of the colliding bucket is found by its hash,
    past the first one, whose hash shares the four-byte prefix. *)
Lemma getStoredTx_byHash_full_hash_witness :
  exists pre found foundTx post,
    TxLookup.getStoredTx_byHash collidingStores collidingHash2
      (Some collidingTx1) (Some [])
      = (true, (fun _ => foundTx) <$> Some collidingTx1,
         (fun _ => found) <$> Some ([] : BinaryData)) /\
    TxLookup.thisHash_ foundTx = collidingHash2 /\
    TxLookup.txdata_ collidingStores !! found = Some foundTx /\
    TxLookup.dbKeyList_ collidingBucket = pre ++ found :: post /\
    Forall (fun c => forall t : TxLookup.StoredTx,
              TxLookup.txdata_ collidingStores !! c = Some t ->
              TxLookup.thisHash_ t <> collidingHash2) pre.
Proof.
  apply (getStoredTx_byHash_full_hash collidingStores collidingHash2
           [0; 0; 11; 0; 0; 4] collidingBucket collidingTx2).
  - vm_compute. reflexivity.
  - right. left.
  - vm_compute. reflexivity.
  - reflexivity.
Defined.

(** ** The valid-duplicate table *)

Section DupTableProps.

Import DupTable.

Variable st : DupState.

Lemma lookupValidDup_cached (blockHgt dup : Z) :
  validDupByHeight_ st !! blockHgt = Some dup ->
  lookupValidDup st blockHgt = Some dup.
Proof. intros Hc. unfold lookupValidDup. rewrite Hc. reflexivity. Qed.

Lemma lookupValidDup_miss (blockHgt : Z) :
  validDupByHeight_ st !! blockHgt = None ->
  lookupValidDup st blockHgt = validDup_fromDB st blockHgt.
Proof. intros Hc. unfold lookupValidDup. rewrite Hc. reflexivity. Qed.

(** A dupID is recorded for a height when the table or the mirror has
    one. *)
Lemma lookupValidDup_is_Some (blockHgt : Z) :
  is_Some (lookupValidDup st blockHgt) <->
  is_Some (validDupByHeight_ st !! blockHgt) \/
  is_Some (validDup_fromDB st blockHgt).
Proof.
  unfold lookupValidDup.
  destruct (validDupByHeight_ st !! blockHgt) as [dup |] eqn:Hc.
  - split; [intros _; left | intros _]; eexists; reflexivity.
  - split; [intros H; right; exact H | intros [[? Hn] | H]];
      [discriminate | exact H].
Qed.

Lemma setValidDupIDForHeight_keep (blockHgt dup : Z) :
  is_Some (lookupValidDup st blockHgt) ->
  setValidDupIDForHeight st blockHgt dup false = st.
Proof.
  intros Hsome. unfold setValidDupIDForHeight.
  rewrite bool_decide_eq_true_2 by assumption. reflexivity.
Qed.

(** With [overwrite] set, or for a height with nothing recorded, the table
    takes the new dupID. *)
Lemma setValidDupIDForHeight_write (blockHgt dup : Z) (overwrite : bool) :
  overwrite = true \/ lookupValidDup st blockHgt = None ->
  getValidDupIDForHeight
    (setValidDupIDForHeight st blockHgt dup overwrite) blockHgt
  = Z.land dup 127.
Proof.
  intros Hw. unfold setValidDupIDForHeight.
  destruct (negb overwrite
            && bool_decide (is_Some (lookupValidDup st blockHgt))) eqn:Hguard.
  - apply andb_true_iff in Hguard as [Hov Hsome].
    apply negb_true_iff in Hov. apply bool_decide_eq_true_1 in Hsome.
    destruct Hw as [Hw | Hw]; [congruence |].
    rewrite Hw in Hsome. destruct Hsome as [? Hn]. discriminate.
  - unfold getValidDupIDForHeight, lookupValidDup.
    cbn [validDupByHeight_]. rewrite lookup_insert_eq. reflexivity.
Qed.

End DupTableProps.

(** C7.  For every height that already has a dupID recorded, in the table
    [validDupByHeight_] or in its HEADHGT mirror, and every dupID [dup],
    [setValidDupIDForHeight blockHgt dup false] does nothing: the state is
    the one before, so the table's entry and the mirror's entry for the
    height are unchanged, and [getValidDupIDForHeight] still returns what it
    returned before the call. *)
Theorem setValidDupIDForHeight_no_overwrite (st : DupTable.DupState)
  (blockHgt dup : Z) :
  is_Some (DupTable.validDupByHeight_ st !! blockHgt) \/
  is_Some (DupTable.validDup_fromDB st blockHgt) ->
  DupTable.setValidDupIDForHeight st blockHgt dup false = st /\
  DupTable.validDupByHeight_
    (DupTable.setValidDupIDForHeight st blockHgt dup false) !! blockHgt
    = DupTable.validDupByHeight_ st !! blockHgt /\
  DupTable.headHgt_
    (DupTable.setValidDupIDForHeight st blockHgt dup false) !! blockHgt
    = DupTable.headHgt_ st !! blockHgt /\
  DupTable.getValidDupIDForHeight
    (DupTable.setValidDupIDForHeight st blockHgt dup false) blockHgt
    = DupTable.getValidDupIDForHeight st blockHgt.
Proof.
  intros Hrec. apply lookupValidDup_is_Some in Hrec.
  rewrite (setValidDupIDForHeight_keep st blockHgt dup Hrec).
  repeat split; reflexivity.
Qed.

Example setValidDupIDForHeight_mirror_only :
  DupTable.getValidDupIDForHeight dupStateExample 4 = 2 /\
  DupTable.getValidDupIDForHeight
    (DupTable.setValidDupIDForHeight dupStateExample 4 0 false) 4 = 2 /\
  DupTable.getValidDupIDForHeight
    (DupTable.setValidDupIDForHeight dupStateExample 4 0 true) 4 = 0.
Proof. vm_compute. repeat split; reflexivity. Qed.

(** At height 3 of that state, setting dupID 0 without overwrite keeps
    dupID 1. *)
Lemma setValidDupIDForHeight_no_overwrite_witness :
  DupTable.setValidDupIDForHeight dupStateExample 3 0 false
    = dupStateExample /\
  DupTable.validDupByHeight_
    (DupTable.setValidDupIDForHeight dupStateExample 3 0 false) !! 3
    = DupTable.validDupByHeight_ dupStateExample !! 3 /\
  DupTable.headHgt_
    (DupTable.setValidDupIDForHeight dupStateExample 3 0 false) !! 3
    = DupTable.headHgt_ dupStateExample !! 3 /\
  DupTable.getValidDupIDForHeight
    (DupTable.setValidDupIDForHeight dupStateExample 3 0 false) 3
    = DupTable.getValidDupIDForHeight dupStateExample 3.
Proof.
  apply (setValidDupIDForHeight_no_overwrite dupStateExample 3 0).
  left. exists 1. vm_compute. reflexivity.
Defined.

(** ** The notify/run rendezvous *)

Section RendezvousProps.

Import Rendezvous.




(** No run completes ahead of its notification. *)
Lemma exec_invariant (r : BDM_Inject_Impl) (evs : list event) :
  (runCompleteCount r <= notifyCount r)%nat ->
  (runCompleteCount (exec r evs).1 <= notifyCount (exec r evs).1)%nat.
Proof.
  revert r. induction evs as [| ev evs IH]; intros r Hinv; [exact Hinv |].
  destruct ev; cbn [exec].
  - apply IH. cbn [notify runCompleteCount notifyCount]. lia.
  - unfold worker_step. destruct (wantsToRun r).
    + specialize (IH {| notifyCount := notifyCount r;
                        runCompleteCount := notifyCount r;
                        failure := failure r |}).
      destruct (exec _ evs) as [r2 m]. apply IH. cbn. lia.
    + specialize (IH r Hinv). destruct (exec r evs) as [r2 m]. exact IH.
Qed.

(** Two rounds of notifications, each followed by a wake-up, give two
    runs: a run covers only the notifications counted before it. *)
Example exec_two_rounds :
  (exec fresh [Notify; WorkerWakes; Notify; Notify; WorkerWakes]).2 = 2%nat.
Proof. reflexivity. Qed.

End RendezvousProps.



(* ===================================================================== *)
(** * Part III: further properties of the inline members *)
(* ===================================================================== *)

(** ** [std::map::operator[]] on [dbEnv_] *)

Section MapSubscript.

Implicit Types (m : gmap DB_SELECT LMDBEnv_ptr) (k : DB_SELECT).

Lemma map_subscript_present m k (p : LMDBEnv_ptr) :
  m !! k = Some p -> map_subscript m k = (m, p).
Proof. intros Hk. unfold map_subscript. rewrite Hk. reflexivity. Qed.

Lemma map_subscript_absent m k :
  m !! k = None -> map_subscript m k = (<[k := None]> m, None).
Proof. intros Hk. unfold map_subscript. rewrite Hk. reflexivity. Qed.

(** After the subscript the key is present and maps to the pointer that
    was returned. *)
Lemma map_subscript_lookup_key m k :
  (map_subscript m k).1 !! k = Some (map_subscript m k).2.
Proof.
  unfold map_subscript. destruct (m !! k) as [p |] eqn:Hk; cbn [fst snd].
  - exact Hk.
  - apply lookup_insert_eq.
Qed.

Lemma map_subscript_lookup_other m k (k' : DB_SELECT) :
  k <> k' -> (map_subscript m k).1 !! k' = m !! k'.
Proof.
  intros Hne. unfold map_subscript.
  destruct (m !! k) as [p |]; cbn [fst]; [reflexivity |].
  apply lookup_insert_ne. assumption.
Qed.

Lemma map_subscript_keeps m k (k' : DB_SELECT) (p : LMDBEnv_ptr) :
  m !! k' = Some p -> (map_subscript m k).1 !! k' = Some p.
Proof.
  intros Hk'. destruct (decide (k = k')) as [<- | Hne].
  - rewrite map_subscript_lookup_key, (map_subscript_present m k p Hk').
    reflexivity.
  - rewrite map_subscript_lookup_other by assumption. exact Hk'.
Qed.

Lemma map_subscript_dom m k :
  dom (map_subscript m k).1 = dom m ∪ {[k]}.
Proof.
  apply set_eq. intros x.
  rewrite elem_of_union, elem_of_singleton, !elem_of_dom.
  destruct (decide (k = x)) as [<- | Hne].
  - rewrite map_subscript_lookup_key. split; [right; reflexivity |].
    intros _. eexists. reflexivity.
  - rewrite map_subscript_lookup_other by assumption.
    split; [left; assumption | intros [Hx | ->]; [assumption | contradiction]].
Qed.

(** A second subscript with the same key finds the entry of the first. *)
Lemma map_subscript_again m k :
  map_subscript (map_subscript m k).1 k
    = ((map_subscript m k).1, (map_subscript m k).2).
Proof.
  apply map_subscript_present, map_subscript_lookup_key.
Qed.

End MapSubscript.

(** ** More on [beginDBTransaction] *)

Section BeginTransactionState.

Variable self : LMDBBlockDatabase.

Lemma set_dbEnv_same : set_dbEnv self (dbEnv_ self) = self.
Proof. destruct self; reflexivity. Qed.

(** Both branches of the method in one equation. *)
Lemma beginDBTransaction_subscript (db : DB_SELECT) (mode : Mode) :
  beginDBTransaction self db mode
    = (set_dbEnv self
         (map_subscript (dbEnv_ self) (subscripted_selector self db)).1,
       {| txn_env :=
            (map_subscript (dbEnv_ self) (subscripted_selector self db)).2;
          txn_mode := mode |}).
Proof.
  unfold beginDBTransaction, subscripted_selector.
  destruct (decide (armoryDbType_ self = ARMORY_DB_SUPER)).
  - destruct (map_subscript (dbEnv_ self) BLKDATA); reflexivity.
  - destruct (map_subscript (dbEnv_ self) db); reflexivity.
Qed.

Lemma subscripted_selector_after (db db' : DB_SELECT) (mode : Mode) :
  subscripted_selector (beginDBTransaction self db mode).1 db'
    = subscripted_selector self db'.
Proof. rewrite beginDBTransaction_subscript. reflexivity. Qed.

End BeginTransactionState.

(** X1.  [beginDBTransaction] is declared [const] but subscripts the
    [mutable] map [dbEnv_]: the object after the call has the same type,
    prune type, stores and open flag; every environment pointer that was
    in [dbEnv_] is still there, unchanged; and the keys of [dbEnv_] are the
    old ones plus the one selector the call subscripted ([BLKDATA] in
    Supernode mode, [db] otherwise). *)
Theorem beginDBTransaction_dbEnv_growth (self : LMDBBlockDatabase)
  (db : DB_SELECT) (mode : Mode) :
  armoryDbType_ (beginDBTransaction self db mode).1 = armoryDbType_ self /\
  dbPruneType_ (beginDBTransaction self db mode).1 = dbPruneType_ self /\
  dbs_ (beginDBTransaction self db mode).1 = dbs_ self /\
  dbIsOpen_ (beginDBTransaction self db mode).1 = dbIsOpen_ self /\
  (forall (k : DB_SELECT) (p : LMDBEnv_ptr),
     dbEnv_ self !! k = Some p ->
     dbEnv_ (beginDBTransaction self db mode).1 !! k = Some p) /\
  dom (dbEnv_ (beginDBTransaction self db mode).1)
    = dom (dbEnv_ self) ∪ {[subscripted_selector self db]}.
Proof.
  rewrite beginDBTransaction_subscript. cbn [fst set_dbEnv armoryDbType_
    dbPruneType_ dbs_ dbIsOpen_ dbEnv_].
  repeat split.
  - intros k p Hk. apply map_subscript_keeps. exact Hk.
  - apply map_subscript_dom.
Qed.

(** X2.  Which pointer [beginDBTransaction] hands to the [Transaction]
    constructor when the subscripted selector has no environment: it is the
    null pointer exactly when [dbEnv_] has no entry for the subscripted
    selector or holds a null pointer there; an absent entry is created as a
    null pointer, and the object is left exactly as it was if and only if
    the entry existed. *)
Theorem beginDBTransaction_null_env (self : LMDBBlockDatabase)
  (db : DB_SELECT) (mode : Mode) :
  (txn_env (beginDBTransaction self db mode).2 = None <->
   dbEnv_ self !! subscripted_selector self db = None \/
   dbEnv_ self !! subscripted_selector self db = Some None) /\
  (dbEnv_ self !! subscripted_selector self db = None ->
   dbEnv_ (beginDBTransaction self db mode).1
     = <[subscripted_selector self db := None]> (dbEnv_ self)) /\
  ((beginDBTransaction self db mode).1 = self <->
   is_Some (dbEnv_ self !! subscripted_selector self db)).
Proof.
  rewrite beginDBTransaction_subscript. cbn [fst snd txn_env].
  set (key := subscripted_selector self db).
  destruct (dbEnv_ self !! key) as [p |] eqn:Hkey.
  - rewrite (map_subscript_present _ _ p Hkey). cbn [fst snd].
    rewrite set_dbEnv_same. split; [| split].
    + split; [intros ->; right; reflexivity | intros [Hn | Hs]]; congruence.
    + discriminate.
    + split; [intros _; eexists; reflexivity | reflexivity].
  - rewrite (map_subscript_absent _ _ Hkey). cbn [fst snd].
    split; [| split].
    + split; [intros _; left |]; reflexivity.
    + reflexivity.
    + split; [| intros [? Hn]; discriminate].
      intros Heq. apply (f_equal dbEnv_) in Heq. cbn [set_dbEnv dbEnv_] in Heq.
      apply (f_equal (fun m => m !! key)) in Heq.
      rewrite lookup_insert_eq, Hkey in Heq. discriminate.
Qed.

(** In Fullnode mode with only the blocks environment open, the
    transaction for HISTORY is constructed with the null pointer and HISTORY
    gets a null entry. *)
Lemma beginDBTransaction_null_env_witness :
  txn_env (beginDBTransaction fullnode_blocks_only HISTORY ReadWrite).2
    = None /\
  dbEnv_ (beginDBTransaction fullnode_blocks_only HISTORY ReadWrite).1
    = <[HISTORY := None]> (dbEnv_ fullnode_blocks_only).
Proof.
  pose proof (beginDBTransaction_null_env fullnode_blocks_only HISTORY
                ReadWrite) as (Hnull & Hins & _).
  assert (Habs : dbEnv_ fullnode_blocks_only
                   !! subscripted_selector fullnode_blocks_only HISTORY
                 = None) by (vm_compute; reflexivity).
  split.
  - apply Hnull. left. exact Habs.
  - exact (Hins Habs).
Defined.

(** X3.  The subscripts of earlier calls change no later one: after any
    earlier [beginDBTransaction], a call hands the [Transaction]
    constructor the same environment pointer and mode as it would have
    without the earlier call, and repeating a call for the same selector
    leaves the object, [dbEnv_] included, as the first call left it. *)
Theorem beginDBTransaction_repeat (self : LMDBBlockDatabase)
  (db1 db2 : DB_SELECT) (mode1 mode2 : Mode) :
  (beginDBTransaction (beginDBTransaction self db1 mode1).1 db2 mode2).2
    = (beginDBTransaction self db2 mode2).2 /\
  (beginDBTransaction (beginDBTransaction self db1 mode1).1 db1 mode2).1
    = (beginDBTransaction self db1 mode1).1.
Proof.
  split.
  - rewrite (beginDBTransaction_subscript (beginDBTransaction self db1 mode1).1).
    rewrite subscripted_selector_after.
    rewrite (beginDBTransaction_subscript self db2). cbn [snd].
    f_equal. rewrite !map_subscript_snd.
    rewrite (beginDBTransaction_subscript self db1). cbn [fst set_dbEnv dbEnv_].
    apply map_subscript_fst_lookup.
  - rewrite (beginDBTransaction_subscript (beginDBTransaction self db1 mode1).1).
    rewrite subscripted_selector_after. cbn [fst].
    rewrite (beginDBTransaction_subscript self db1). cbn [fst set_dbEnv dbEnv_
      armoryDbType_ dbPruneType_ dbs_ dbIsOpen_].
    rewrite map_subscript_again. reflexivity.
Qed.

(** X4.  Passing the folded selector makes no difference: in every mode,
    [beginDBTransaction] called with [getDbSelect db] gives the same
    transaction and the same object as called with [db]. *)
Theorem beginDBTransaction_getDbSelect (self : LMDBBlockDatabase)
  (db : DB_SELECT) (mode : Mode) :
  beginDBTransaction self (getDbSelect self db) mode
    = beginDBTransaction self db mode.
Proof.
  destruct (decide (armoryDbType_ self = ARMORY_DB_SUPER)) as [Hs | Hs].
  - rewrite !beginDBTransaction_subscript. unfold subscripted_selector.
    destruct (decide (armoryDbType_ self = ARMORY_DB_SUPER));
      [reflexivity | contradiction].
  - rewrite getDbSelect_not_super by assumption. reflexivity.
Qed.

(** ** More on [getDbSelect] *)

(** X5.  Folding is a projection: [getDbSelect] applied to its own result
    returns that result, and a selector is left as it is exactly when it is
    [HEADERS] or [BLKDATA] or the mode is not Supernode. *)
Theorem getDbSelect_projection (self : LMDBBlockDatabase) (dbs : DB_SELECT) :
  getDbSelect self (getDbSelect self dbs) = getDbSelect self dbs /\
  (getDbSelect self dbs = dbs <->
   dbs = HEADERS \/ dbs = BLKDATA \/ armoryDbType_ self <> ARMORY_DB_SUPER).
Proof.
  split; [apply getDbSelect_idempotent |].
  destruct (decide (armoryDbType_ self = ARMORY_DB_SUPER)) as [Hs | Hs].
  - destruct (decide (dbs = HEADERS)) as [-> | Hne].
    + rewrite getDbSelect_HEADERS. split; [left |]; reflexivity.
    + rewrite getDbSelect_super by assumption.
      split; [intros <-; right; left; reflexivity |].
      intros [Hh | [Hb | Hm]]; [contradiction | congruence | contradiction].
  - rewrite getDbSelect_not_super by assumption.
    split; [intros _; right; right; assumption | reflexivity].
Qed.

(** X6.  Which selectors share a store: two selectors are folded to the
    same store exactly when they are equal, or the mode is Supernode and
    neither is [HEADERS].  In particular no other selector is ever folded
    into [HEADERS], in any mode. *)
Theorem getDbSelect_same_store (self : LMDBBlockDatabase) (a b : DB_SELECT) :
  (getDbSelect self a = getDbSelect self b <->
   a = b \/
   (armoryDbType_ self = ARMORY_DB_SUPER /\ a <> HEADERS /\ b <> HEADERS)) /\
  (getDbSelect self a = HEADERS <-> a = HEADERS).
Proof.
  assert (Hh : forall d, getDbSelect self d = HEADERS <-> d = HEADERS).
  { intros d. split; [| intros ->; apply getDbSelect_HEADERS].
    unfold getDbSelect.
    destruct (decide (d = HEADERS)) as [-> | Hne]; [reflexivity |].
    destruct (decide (armoryDbType_ self = ARMORY_DB_SUPER));
      [discriminate | intros Heq; exact Heq]. }
  split; [| apply Hh].
  destruct (decide (armoryDbType_ self = ARMORY_DB_SUPER)) as [Hs | Hs].
  - destruct (decide (a = HEADERS)) as [-> | Ha].
    + rewrite getDbSelect_HEADERS. split.
      * intros Heq. left. symmetry. apply Hh. symmetry. exact Heq.
      * intros [<- | (_ & Hc & _)]; [reflexivity | contradiction].
    + rewrite (getDbSelect_super self a) by assumption.
      destruct (decide (b = HEADERS)) as [-> | Hb].
      * rewrite getDbSelect_HEADERS. split; [discriminate |].
        intros [-> | (_ & _ & Hc)]; contradiction.
      * rewrite (getDbSelect_super self b) by assumption.
        split; [intros _; right; auto | reflexivity].
  - rewrite !getDbSelect_not_super by assumption.
    split; [intros ->; left; reflexivity |].
    intros [-> | (Hc & _)]; [reflexivity | contradiction].
Qed.

(** ** The database type is read through one test *)

(** X7.  [getDbSelect] and [beginDBTransaction] read the database type
    only through the test against [ARMORY_DB_SUPER]: two objects with the
    same environments whose types are both Supernode or both not (Bare,
    Lite, Partial, Full and Whatever are all "not") fold every selector
    alike and open the same transaction. *)
Theorem mode_only_through_super_test (self1 self2 : LMDBBlockDatabase)
  (db : DB_SELECT) (mode : Mode) :
  dbEnv_ self1 = dbEnv_ self2 ->
  (armoryDbType_ self1 = ARMORY_DB_SUPER <->
   armoryDbType_ self2 = ARMORY_DB_SUPER) ->
  getDbSelect self1 db = getDbSelect self2 db /\
  (beginDBTransaction self1 db mode).2 = (beginDBTransaction self2 db mode).2 /\
  dbEnv_ (beginDBTransaction self1 db mode).1
    = dbEnv_ (beginDBTransaction self2 db mode).1.
Proof.
  intros Henv Hmode.
  assert (Hsel : subscripted_selector self1 db = subscripted_selector self2 db).
  { unfold subscripted_selector.
    destruct (decide (armoryDbType_ self1 = ARMORY_DB_SUPER)) as [H1 | H1],
             (decide (armoryDbType_ self2 = ARMORY_DB_SUPER)) as [H2 | H2];
      try reflexivity; exfalso; tauto. }
  split; [| split].
  - unfold getDbSelect.
    destruct (decide (db = HEADERS)); [reflexivity |].
    destruct (decide (armoryDbType_ self1 = ARMORY_DB_SUPER)) as [H1 | H1],
             (decide (armoryDbType_ self2 = ARMORY_DB_SUPER)) as [H2 | H2];
      try reflexivity; exfalso; tauto.
  - rewrite !beginDBTransaction_subscript. cbn [snd].
    rewrite Henv, Hsel. reflexivity.
  - rewrite !beginDBTransaction_subscript. cbn [fst set_dbEnv dbEnv_].
    rewrite Henv, Hsel. reflexivity.
Qed.

(** A Fullnode object and a Whatever object over the same environments. *)
Lemma mode_only_through_super_test_witness :
  getDbSelect fullnode_blocks_only HISTORY
    = getDbSelect whatever_blocks_only HISTORY /\
  (beginDBTransaction fullnode_blocks_only HISTORY ReadOnly).2
    = (beginDBTransaction whatever_blocks_only HISTORY ReadOnly).2 /\
  dbEnv_ (beginDBTransaction fullnode_blocks_only HISTORY ReadOnly).1
    = dbEnv_ (beginDBTransaction whatever_blocks_only HISTORY ReadOnly).1.
Proof.
  apply (mode_only_through_super_test fullnode_blocks_only
           whatever_blocks_only HISTORY ReadOnly).
  - reflexivity.
  - split; intros Hs; cbn in Hs; discriminate.
Defined.

(** ** The database directories *)

Section FileNames.

Variable baseDir_ : string.

Lemma append_inj_r (s1 s2 : string) :
  String.append baseDir_ s1 = String.append baseDir_ s2 -> s1 = s2.
Proof.
  induction baseDir_ as [| c d IH]; cbn [String.append]; intros Heq.
  - exact Heq.
  - injection Heq as Heq. apply IH. exact Heq.
Qed.

Lemma append_nonempty_neq (s : string) :
  s <> EmptyString -> String.append baseDir_ s <> baseDir_.
Proof.
  intros Hs Heq. apply Hs.
  induction baseDir_ as [| c d IH]; cbn [String.append] in Heq.
  - exact Heq.
  - injection Heq as Heq. apply IH. exact Heq.
Qed.

End FileNames.

(** X8.  For every base directory the four database directories
    ([/blocks], [/headers], [/history], [/txhints] under it) are pairwise
    different and none of them is the base directory itself, so no two
    environments are ever opened on one path. *)
Theorem db_filenames_distinct (baseDir_ : string) :
  NoDup [dbBlkdataFilename baseDir_; dbHeadersFilename baseDir_;
         dbHistoryFilename baseDir_; dbTxhintsFilename baseDir_] /\
  Forall (fun f => f <> baseDir_)
    [dbBlkdataFilename baseDir_; dbHeadersFilename baseDir_;
     dbHistoryFilename baseDir_; dbTxhintsFilename baseDir_].
Proof.
  unfold dbBlkdataFilename, dbHeadersFilename, dbHistoryFilename,
    dbTxhintsFilename.
  split.
  - repeat constructor;
      rewrite ?elem_of_cons, elem_of_nil;
      intros Hin;
      repeat match goal with
             | H : _ \/ _ |- _ => destruct H as [H | H]
             | H : String.append _ _ = String.append _ _ |- _ =>
                 apply append_inj_r in H; discriminate H
             | H : False |- _ => contradiction
             end.
  - repeat constructor; apply append_nonempty_neq; discriminate.
Qed.

(** ** [BlockDataManagerConfig] setters *)

(** X9.  The three setters of [BlockDataManagerConfig] are independent:
    applied in any of the six orders they give the same configuration,
    which holds the three values set and keeps the database type, prune
    type and both locations; setting a field twice keeps the last value. *)
Theorem config_setters_independent (c : BlockDataManagerConfig)
  (blk tx magic older : BinaryData) :
  let c' := setMagicBytes (setGenesisTxHash (setGenesisBlockHash c blk) tx)
              magic in
  setMagicBytes (setGenesisBlockHash (setGenesisTxHash c tx) blk) magic = c' /\
  setGenesisTxHash (setMagicBytes (setGenesisBlockHash c blk) magic) tx = c' /\
  setGenesisTxHash (setGenesisBlockHash (setMagicBytes c magic) blk) tx = c' /\
  setGenesisBlockHash (setMagicBytes (setGenesisTxHash c tx) magic) blk = c' /\
  setGenesisBlockHash (setGenesisTxHash (setMagicBytes c magic) tx) blk = c' /\
  genesisBlockHash c' = blk /\ genesisTxHash c' = tx /\ magicBytes c' = magic /\
  armoryDbType c' = armoryDbType c /\ pruneType c' = pruneType c /\
  blkFileLocation c' = blkFileLocation c /\
  levelDBLocation c' = levelDBLocation c /\
  setGenesisBlockHash (setGenesisBlockHash c older) blk
    = setGenesisBlockHash c blk /\
  setGenesisTxHash (setGenesisTxHash c older) tx = setGenesisTxHash c tx /\
  setMagicBytes (setMagicBytes c older) magic = setMagicBytes c magic.
Proof.
  destruct c. cbv zeta. repeat split.
Qed.
